(** * Recursion guards of [jedi/evaluate/recursion.py]

    [RecursionDetector] guards statement evaluation with a linked chain of
    [_RecursionNode]s; [ExecutionRecursionDetector] guards executions with
    counters, a set of every target seen and the list of targets on the
    current path.  Python objects are modelled by the data the guards read
    from them; a method that can raise returns a [result]. *)

From Stdlib Require Import ZArith List.
From stdpp Require Import gmap list.
Import ListNotations.
Local Open Scope Z_scope.

(** ** Collaborators read by the guards *)

(** A module or compiled object as returned by [get_parent_until()];
    [builtin] is [compiled.builtin]. *)
Inductive module_t : Type :=
| builtin
| SourceModule (path : N).

#[global] Instance module_t_eq_dec : EqDecision module_t.
Proof. solve_decision. Defined.

(** A statement: its own identity, the module [get_parent_until()] gives
    and its [start_pos] (line, column). *)
Record statement : Type := Statement {
  stmt_id : N;
  get_parent_until : module_t;
  start_pos : Z * Z }.

#[global] Instance statement_eq_dec : EqDecision statement.
Proof. solve_decision. Defined.

(** Python exceptions the guards can raise. *)
Inductive exn : Type :=
| AttributeError
| IndexError.

(** Outcome of a method on a mutable object: the value returned or the
    exception raised, each with the object as the call left it. *)
Inductive result (S A : Type) : Type :=
| Return (a : A) (s : S)
| Raise (e : exn) (s : S).
Arguments Return {S A} a s.
Arguments Raise {S A} e s.

Definition state_of {S A} (r : result S A) : S :=
  match r with Return _ s => s | Raise _ s => s end.

Definition value_of {S A} (r : result S A) : option A :=
  match r with Return a _ => Some a | Raise _ _ => None end.

(** What a Python expression used as a condition can evaluate to here. *)
Inductive pyvalue : Type :=
| PyNone
| PyBool (b : bool).

Definition truthy (v : pyvalue) : bool :=
  match v with PyNone => false | PyBool b => b end.

(** ** RecursionDetector *)

Module RecursionDetector.

#[local] Unset Elimination Schemes.
Inductive _RecursionNode : Type := Node {
  script : module_t;
  position : Z * Z;
  parent : option _RecursionNode;
  stmt : statement;
  is_ignored : bool }.
#[local] Set Elimination Schemes.

(** [_RecursionNode.__init__] *)
Definition new_node (st : statement) (par : option _RecursionNode)
  : _RecursionNode :=
  {| script := get_parent_until st;
     position := start_pos st;
     parent := par;
     stmt := st;
     is_ignored := bool_decide (get_parent_until st = builtin) |}.

(** [_RecursionNode.__eq__]: [None] for a falsy [other]. *)
Definition __eq__ (self : _RecursionNode) (other : option _RecursionNode)
  : pyvalue :=
  match other with
  | None => PyNone
  | Some o =>
      PyBool (bool_decide (script self = script o)
              && bool_decide (position self = position o)
              && negb (is_ignored self) && negb (is_ignored o))
  end.

Record t : Type := Detector {
  top : option _RecursionNode;
  current : option _RecursionNode }.

Definition __init__ : t := {| top := None; current := None |}.

(** [pop_stmt] *)
Definition pop_stmt (self : t) : t :=
  match current self with
  | Some c => {| top := top self; current := parent c |}
  | None => self
  end.

(** The [while True] loop of [_check_recursion]: step to the parent,
    return it when it equals the current node, return [False] (here
    [None]) when the root is passed. *)
Fixpoint check_loop (cur test : _RecursionNode) : option _RecursionNode :=
  let test' := parent test in
  if truthy (__eq__ cur test') then test'
  else match test' with
       | None => None
       | Some t' => check_loop cur t'
       end.

(** [_check_recursion]: the matching ancestor, or [None] for [False]. *)
Definition _check_recursion (self : t)
  : result t (option _RecursionNode) :=
  match current self with
  | None => Raise AttributeError self
  | Some cur => Return (check_loop cur cur) self
  end.

(** [push_stmt]; [debug.warning] writes to the debug log only. *)
Definition push_stmt (self : t) (st : statement) : result t bool :=
  let self1 := {| top := top self;
                  current := Some (new_node st (current self)) |} in
  match _check_recursion self1 with
  | Raise e s => Raise e s
  | Return (Some check) s => Return true (pop_stmt s)
  | Return None s => Return false s
  end.

(** The loop of [node_statements]: [result.insert(0, n.stmt)]. *)
Fixpoint node_statements_loop (n : _RecursionNode) (res : list statement)
  : list statement :=
  match parent n with
  | None => stmt n :: res
  | Some p => node_statements_loop p (stmt n :: res)
  end.

Definition node_statements (self : t) : list statement :=
  match current self with
  | None => []
  | Some n => node_statements_loop n []
  end.

(** The detector right after the first assignment of [push_stmt]. *)
Definition pushed (self : t) (st : statement) : t :=
  {| top := top self; current := Some (new_node st (current self)) |}.

(** *** Sequences of calls on one detector *)

Inductive call : Type :=
| PushStmt (st : statement)
| PopStmt.

(** Runs [calls] on [self] while pairing every [pop_stmt] with the latest
    [push_stmt] that returned [False] and is still open; [pending] counts
    the open ones.  A push that returned [True] has popped itself and
    takes no pop.  [None]: the sequence is not paired (a pop with nothing
    open, or pushes left open at the end), or a push raised, which
    [push_stmt_cases] below excludes. *)
Fixpoint run_paired (calls : list call) (pending : nat) (self : t)
  : option t :=
  match calls with
  | [] => match pending with O => Some self | S _ => None end
  | PushStmt st :: rest =>
      match push_stmt self st with
      | Return true s => run_paired rest pending s
      | Return false s => run_paired rest (S pending) s
      | Raise _ _ => None
      end
  | PopStmt :: rest =>
      match pending with
      | O => None
      | S k => run_paired rest k (pop_stmt self)
      end
  end.

(** Statements used in the examples. *)
Definition stmt_a : statement := Statement 1 (SourceModule 7) (3, 4).
Definition stmt_a' : statement := Statement 2 (SourceModule 7) (3, 4).
Definition stmt_b : statement := Statement 3 (SourceModule 7) (9, 0).
Definition stmt_len : statement := Statement 4 builtin (3, 4).

(** *** The chain as a list, and unconstrained call sequences *)

(** The nodes from [n] up to the root, nearest first. *)
Fixpoint chain_from (n : _RecursionNode) : list _RecursionNode :=
  n :: match parent n with
       | None => []
       | Some p => chain_from p
       end.

(** The nodes on the chain of a detector, current node first. *)
Definition chain (self : t) : list _RecursionNode :=
  match current self with
  | None => []
  | Some n => chain_from n
  end.

(** One call, with no pairing discipline: what the detector is afterwards. *)
Definition apply_call (self : t) (c : call) : t :=
  match c with
  | PushStmt st => state_of (push_stmt self st)
  | PopStmt => pop_stmt self
  end.

Definition apply_calls (calls : list call) (self : t) : t :=
  fold_left apply_call calls self.

(** Module and position of a statement, the pair [__eq__] compares. *)
Definition place (st : statement) : module_t * (Z * Z) :=
  (get_parent_until st, start_pos st).

Definition outside_builtin (st : statement) : bool :=
  negb (bool_decide (get_parent_until st = builtin)).

(** What [_RecursionNode.__init__] guarantees of a node. *)
Definition built_by_init (n : _RecursionNode) : Prop :=
  script n = get_parent_until (stmt n) /\
  position n = start_pos (stmt n) /\
  is_ignored n = bool_decide (script n = builtin).

(** Every node is as [__init__] built it, and the statements outside the
    builtin module that are on the chain sit at different places. *)
Definition chain_invariant (self : t) : Prop :=
  Forall built_by_init (chain self) /\
  NoDup (map place (List.filter outside_builtin (map stmt (chain self)))).

(** *** recursion_decorator *)

Section Decorator.

Context {V : Type}.

(** The function [run] that [recursion_decorator(func)] returns.  The
    evaluator is represented by its [recursion_detector], the only part
    [run] touches; [func] gets it back and may use it and raise. *)
Definition recursion_decorator
    (func : t -> statement -> result t (list V))
    (evaluator : t) (st : statement) : result t (list V) :=
  match push_stmt evaluator st with
  | Raise x s => Raise x s
  | Return true s => Return [] s
  | Return false s =>
      match func s st with
      | Raise x s' => Raise x s'
      | Return res s' => Return res (pop_stmt s')
      end
  end.

End Decorator.

End RecursionDetector.

(** ** ExecutionRecursionDetector *)

(** The object an execution calls, [execution.base]: a function, or an
    instance of [iterable.Array] or [iterable.Generator]. *)
Inductive base_t : Type :=
| Function (id : N)
| Array (id : N)
| Generator (id : N).

#[global] Instance base_t_eq_dec : EqDecision base_t.
Proof. solve_decision. Defined.

#[global] Instance base_t_countable : Countable base_t.
Proof.
  refine (inj_countable'
    (fun b => match b with
              | Function i => (0%N, i)
              | Array i => (1%N, i)
              | Generator i => (2%N, i)
              end)
    (fun p => match p with
              | (0%N, i) => Function i
              | (1%N, i) => Array i
              | (_, i) => Generator i
              end) _).
  intros []; reflexivity.
Defined.

(** [isinstance(base, iterable.Array | iterable.Generator)] *)
Definition is_array_or_generator (b : base_t) : bool :=
  match b with
  | Function _ => false
  | Array _ | Generator _ => true
  end.

Record execution : Type := Execution {
  base : base_t;
  execution_module : module_t   (* execution.get_parent_until() *) }.

(** The attributes of [jedi.settings] the detector reads. *)
Record settings : Type := Settings {
  max_executions : Z;
  max_executions_without_builtins : Z;
  max_function_recursion_level : Z;
  max_until_execution_unique : Z }.

Module ExecutionRecursionDetector.

Record t : Type := Detector {
  recursion_level : Z;
  parent_execution_funcs : list base_t;
  execution_funcs : gset base_t;
  execution_count : Z }.

Definition __init__ : t :=
  {| recursion_level := 0;
     parent_execution_funcs := [];
     execution_funcs := ∅;
     execution_count := 0 |}.

(** [pop_execution]: [list.pop()] raises on an empty list, before the
    level is touched. *)
Definition pop_execution (self : t) : result t unit :=
  match parent_execution_funcs self with
  | [] => Raise IndexError self
  | _ :: _ =>
      Return tt
        {| recursion_level := recursion_level self - 1;
           parent_execution_funcs := removelast (parent_execution_funcs self);
           execution_funcs := execution_funcs self;
           execution_count := execution_count self |}
  end.

Section WithSettings.

Variable cfg : settings.

(** [push_execution] *)
Definition push_execution (self : t) (e : execution) : bool * t :=
  let in_par_execution_funcs :=
    bool_decide (base e ∈ parent_execution_funcs self) in
  let in_execution_funcs := bool_decide (base e ∈ execution_funcs self) in
  let self' :=
    {| recursion_level := recursion_level self + 1;
       parent_execution_funcs := parent_execution_funcs self ++ [base e];
       execution_funcs := {[base e]} ∪ execution_funcs self;
       execution_count := execution_count self + 1 |} in
  if bool_decide (max_executions cfg < execution_count self') then
    (true, self')
  else if is_array_or_generator (base e) then (false, self')
  else if bool_decide (execution_module e = builtin) then (false, self')
  else if in_par_execution_funcs
          && bool_decide (max_function_recursion_level cfg
                          < recursion_level self') then
    (true, self')
  else if in_execution_funcs
          && bool_decide (max_until_execution_unique cfg
                          < Z.of_nat (size (execution_funcs self'))) then
    (true, self')
  else
    (bool_decide (max_executions_without_builtins cfg
                  < execution_count self'), self').

(** *** Sequences of calls on one detector *)

Inductive call : Type :=
| Push (e : execution)
| Pop.

(** What the caller sees of one call. *)
Inductive event : Type :=
| Pushed (b : bool)
| Popped
| PopRaised (x : exn).

Definition step (self : t) (c : call) : event * t :=
  match c with
  | Push e => let r := push_execution self e in (Pushed (fst r), snd r)
  | Pop =>
      match pop_execution self with
      | Return _ s => (Popped, s)
      | Raise x s => (PopRaised x, s)
      end
  end.

(** The detector after [calls], and what each call gave. *)
Fixpoint run (calls : list call) (self : t) : t :=
  match calls with
  | [] => self
  | c :: rest => run rest (snd (step self c))
  end.

Fixpoint trace (calls : list call) (self : t) : list event :=
  match calls with
  | [] => []
  | c :: rest => fst (step self c) :: trace rest (snd (step self c))
  end.

(** [n] pushes of the same execution, each nested in the one before (no
    pop in between): the value of each push, outermost first. *)
Fixpoint push_chain (n : nat) (e : execution) (self : t) : list bool * t :=
  match n with
  | O => ([], self)
  | S k =>
      let r := push_execution self e in
      let rs := push_chain k e (snd r) in
      (fst r :: fst rs, snd rs)
  end.

End WithSettings.

(** The invariant of the data model. *)
Definition level_is_path_length (self : t) : Prop :=
  Z.of_nat (length (parent_execution_funcs self)) = recursion_level self.

(** Settings and executions used in the examples. *)
Definition example_settings : settings :=
  {| max_executions := 250;
     max_executions_without_builtins := 200;
     max_function_recursion_level := 5;
     max_until_execution_unique := 50 |}.

Definition narrow_settings : settings :=
  {| max_executions := 250;
     max_executions_without_builtins := 200;
     max_function_recursion_level := 5;
     max_until_execution_unique := 2 |}.

Definition exec_f : execution := Execution (Function 1) (SourceModule 7).
Definition exec_g : execution := Execution (Function 2) (SourceModule 7).
Definition exec_h : execution := Execution (Function 3) (SourceModule 7).

Definition tight_settings : settings :=
  {| max_executions := 3;
     max_executions_without_builtins := 1;
     max_function_recursion_level := 5;
     max_until_execution_unique := 50 |}.

(** A detector that has run four executions of [exec_g], one after the
    other, under [tight_settings]. *)
Definition exhausted : t :=
  run tight_settings
    [Push exec_g; Pop; Push exec_g; Pop; Push exec_g; Pop; Push exec_g; Pop]
    __init__.

(** A detector that has run [exec_g] and then [exec_h]. *)
Definition seen_two : t :=
  run narrow_settings [Push exec_g; Pop; Push exec_h; Pop] __init__.

(** None of the checks before the last line of [push_execution] fires:
    the count is within [max_executions], the base is no array or
    generator, the module is not the builtin one, and neither the depth
    nor the breadth test holds on the values the method compares. *)
Definition no_earlier_check_fires (cfg : settings) (self : t)
    (e : execution) : Prop :=
  execution_count self + 1 <= max_executions cfg /\
  is_array_or_generator (base e) = false /\
  execution_module e <> builtin /\
  ~ (base e ∈ parent_execution_funcs self /\
     max_function_recursion_level cfg < recursion_level self + 1) /\
  ~ (base e ∈ execution_funcs self /\
     max_until_execution_unique cfg
       < Z.of_nat (size ({[base e]} ∪ execution_funcs self))).

(** *** Derived views of call sequences *)

(** The bases of the pushes of a call sequence, in order. *)
Fixpoint pushed_bases (calls : list call) : list base_t :=
  match calls with
  | [] => []
  | Push e :: rest => base e :: pushed_bases rest
  | Pop :: rest => pushed_bases rest
  end.

(** Call sequences in which every push is closed by its own pop, as the
    decorator issues them. *)
Inductive nested : list call -> Prop :=
| nested_nil : nested []
| nested_wrap e inner rest :
    nested inner -> nested rest ->
    nested (Push e :: inner ++ Pop :: rest).

(** One completed execution after the other: push, then pop at once. *)
Definition one_by_one (es : list execution) : list call :=
  flat_map (fun e => [Push e; Pop]) es.

(** Exempt from the depth, breadth and second count test. *)
Definition exempt (e : execution) : bool :=
  is_array_or_generator (base e)
  || bool_decide (execution_module e = builtin).

(** *** execution_recursion_decorator *)

Section Decorator.

Variable cfg : settings.
Context {V : Type}.

(** The function [run] that [execution_recursion_decorator(func)]
    returns.  [func] reaches the detector through the execution's
    evaluator, so it takes and gives back the detector, and may raise. *)
Definition execution_recursion_decorator
    (func : t -> execution -> result t (list V))
    (detector : t) (e : execution) : result t (list V) :=
  let pushed := push_execution cfg detector e in
  match (if fst pushed then Return [] (snd pushed)
         else func (snd pushed) e) with
  | Raise x s => Raise x s
  | Return res s =>
      match pop_execution s with
      | Raise x s' => Raise x s'
      | Return _ s' => Return res s'
      end
  end.

End Decorator.

End ExecutionRecursionDetector.

(** * Properties of RecursionDetector *)

Section RecursionDetectorProperties.

Import RecursionDetector.

(** Induction along the parent links of a chain. *)
Lemma node_parent_ind (P : _RecursionNode -> Prop) :
  (forall n, (forall p, parent n = Some p -> P p) -> P n) ->
  forall n, P n.
Proof.
  intros step. fix IH 1.
  intros [sc pos [p|] st ig]; apply step; simpl.
  - intros q [= <-]. apply IH.
  - intros q [=].
Qed.

Lemma pop_pushed self st : pop_stmt (pushed self st) = self.
Proof. destruct self; reflexivity. Qed.

Lemma push_stmt_unfold self st :
  push_stmt self st =
  match check_loop (new_node st (current self))
                   (new_node st (current self)) with
  | Some _ => Return true self
  | None => Return false (pushed self st)
  end.
Proof.
  unfold push_stmt, _check_recursion; cbn [current].
  destruct (check_loop (new_node st (current self))
                       (new_node st (current self))); [|reflexivity].
  f_equal. apply (pop_pushed self st).
Qed.

(** [push_stmt] always returns, and only in one of two ways. *)
Lemma push_stmt_cases self st :
  push_stmt self st = Return true self \/
  push_stmt self st = Return false (pushed self st).
Proof.
  rewrite push_stmt_unfold.
  destruct (check_loop (new_node st (current self))
                       (new_node st (current self))); auto.
Qed.

Lemma push_stmt_false_inv self st s1 :
  push_stmt self st = Return false s1 -> s1 = pushed self st.
Proof.
  destruct (push_stmt_cases self st) as [E|E]; rewrite E; congruence.
Qed.

Lemma eq_truthy_iff a b :
  truthy (__eq__ a (Some b)) = true <->
  script a = script b /\ position a = position b /\
  is_ignored a = false /\ is_ignored b = false.
Proof.
  simpl. rewrite !andb_true_iff, !negb_true_iff, !bool_decide_eq_true.
  tauto.
Qed.

(** An ignored node matches no ancestor. *)
Lemma check_loop_ignored cur :
  is_ignored cur = true -> forall test, check_loop cur test = None.
Proof.
  intros Hig test. induction test as [test IH] using node_parent_ind.
  destruct test as [sc pos [p|] st ig]; simpl in *.
  - rewrite Hig. rewrite andb_false_r. simpl. apply IH. reflexivity.
  - reflexivity.
Qed.

(** [node_statements] lists the chain oldest first. *)
Lemma node_statements_loop_app n : forall res,
  node_statements_loop n res = node_statements_loop n [] ++ res.
Proof.
  induction n as [n IH] using node_parent_ind.
  intros res. destruct n as [sc pos [p|] st ig]; simpl in *.
  - rewrite (IH p eq_refl (st :: res)), (IH p eq_refl [st]).
    rewrite <- app_assoc. reflexivity.
  - reflexivity.
Qed.

Lemma node_statements_pushed self st :
  node_statements (pushed self st) = node_statements self ++ [st].
Proof.
  unfold node_statements, pushed; simpl.
  destruct (current self) as [c|]; simpl; [|reflexivity].
  apply node_statements_loop_app.
Qed.

Lemma iter_pop_succ k self :
  Nat.iter (S k) pop_stmt self = Nat.iter k pop_stmt (pop_stmt self).
Proof. apply Nat.iter_succ_r. Qed.

(** A paired sequence undoes exactly the pushes that were open before. *)
Lemma run_paired_restores calls : forall pending self s',
  run_paired calls pending self = Some s' ->
  s' = Nat.iter pending pop_stmt self.
Proof.
  induction calls as [|[st|] rest IH]; intros pending self s'; simpl.
  - destruct pending; [intros [= <-]; reflexivity | discriminate].
  - destruct (push_stmt_cases self st) as [E|E]; rewrite E.
    + apply IH.
    + intros H. apply IH in H. rewrite iter_pop_succ, pop_pushed in H.
      exact H.
  - destruct pending as [|k]; [discriminate|].
    intros H. apply IH in H. rewrite iter_pop_succ. exact H.
Qed.

(** C5: once [push_stmt a] has returned [False], pushing a statement of
    the same module at the same position (outside the builtins) before
    any pop returns [True] and hands back the detector exactly as the
    first push left it: the chain is the earlier chain followed by [a],
    and one pop leads back to the detector before the first push. *)
Theorem push_stmt_same_place_detected (self s1 : t) (a a' : statement) :
  push_stmt self a = Return false s1 ->
  get_parent_until a' = get_parent_until a ->
  start_pos a' = start_pos a ->
  get_parent_until a <> builtin ->
  push_stmt s1 a' = Return true s1 /\
  node_statements s1 = node_statements self ++ [a] /\
  pop_stmt s1 = self.
Proof.
  intros Hpush Hmod Hpos Hnb.
  apply push_stmt_false_inv in Hpush. subst s1.
  split; [|split].
  - rewrite push_stmt_unfold. simpl.
    rewrite Hmod, Hpos.
    rewrite !bool_decide_eq_true_2 by reflexivity.
    rewrite (bool_decide_eq_false_2 _ Hnb). reflexivity.
  - apply node_statements_pushed.
  - apply pop_pushed.
Qed.

Lemma push_stmt_same_place_detected_witness :
  push_stmt (pushed __init__ stmt_a) stmt_a'
    = Return true (pushed __init__ stmt_a) /\
  node_statements (pushed __init__ stmt_a) = [stmt_a].
Proof.
  destruct (push_stmt_same_place_detected __init__ (pushed __init__ stmt_a)
              stmt_a stmt_a') as (H1 & H2 & _).
  - reflexivity.
  - reflexivity.
  - reflexivity.
  - discriminate.
  - split; [exact H1 | exact H2].
Defined.

(** C6: two nodes compare equal exactly when their modules and their
    positions agree and neither is flagged as ignored, the flag being set
    for the statements of the builtin module; so [push_stmt] of a
    statement of the builtin module returns [False] on every detector,
    whatever is on the chain, and leaves the new node pushed. *)
Theorem builtin_never_recursive (a b : _RecursionNode) (self : t)
    (st : statement) (id : N) (pos : Z * Z) :
  (truthy (__eq__ a (Some b)) = true <->
     script a = script b /\ position a = position b /\
     is_ignored a = false /\ is_ignored b = false) /\
  (is_ignored (new_node st (current self)) = true <->
     get_parent_until st = builtin) /\
  push_stmt self (Statement id builtin pos)
    = Return false (pushed self (Statement id builtin pos)).
Proof.
  split; [apply eq_truthy_iff | split].
  - simpl. apply bool_decide_eq_true.
  - rewrite push_stmt_unfold.
    rewrite check_loop_ignored; reflexivity.
Qed.

Lemma builtin_never_recursive_witness :
  push_stmt (pushed __init__ stmt_len) stmt_len
    = Return false (pushed (pushed __init__ stmt_len) stmt_len).
Proof.
  apply (builtin_never_recursive (new_node stmt_a None) (new_node stmt_a None)
           (pushed __init__ stmt_len) stmt_len 4%N (3, 4)).
Defined.

(** C7: after any sequence of calls in which every [pop_stmt] closes the
    latest open [push_stmt] that returned [False] and none is left open,
    a detector that started fresh is fresh again and [node_statements]
    is empty. *)
Theorem paired_calls_unwind (calls : list call) (s' : t) :
  run_paired calls 0 __init__ = Some s' ->
  s' = __init__ /\ node_statements s' = [].
Proof.
  intros H. apply run_paired_restores in H. simpl in H. subst s'.
  split; reflexivity.
Qed.

Lemma paired_calls_unwind_witness :
  node_statements
    (default __init__
       (run_paired [PushStmt stmt_a; PushStmt stmt_b; PushStmt stmt_a';
                    PopStmt; PushStmt stmt_len; PopStmt; PopStmt]
                   0 __init__)) = [].
Proof.
  apply (paired_calls_unwind
           [PushStmt stmt_a; PushStmt stmt_b; PushStmt stmt_a';
            PopStmt; PushStmt stmt_len; PopStmt; PopStmt]).
  reflexivity.
Defined.

End RecursionDetectorProperties.

(** * Properties of ExecutionRecursionDetector *)

Section ExecutionRecursionDetectorProperties.

Import ExecutionRecursionDetector.

Lemma push_execution_state (cfg : settings) (self : t) (e : execution) :
  snd (push_execution cfg self e) =
  {| recursion_level := recursion_level self + 1;
     parent_execution_funcs := parent_execution_funcs self ++ [base e];
     execution_funcs := {[base e]} ∪ execution_funcs self;
     execution_count := execution_count self + 1 |}.
Proof.
  unfold push_execution.
  repeat match goal with
         | |- context [if ?c then _ else _] => destruct c
         end; reflexivity.
Qed.

(** C9: whatever it returns and whatever the settings, [push_execution]
    leaves the detector with [recursion_level] and [execution_count] one
    higher, the base added to [execution_funcs] and appended to
    [parent_execution_funcs], and nothing else changed. *)
Theorem push_execution_effect (cfg : settings) (self : t) (e : execution) :
  snd (push_execution cfg self e) =
  {| recursion_level := recursion_level self + 1;
     parent_execution_funcs := parent_execution_funcs self ++ [base e];
     execution_funcs := {[base e]} ∪ execution_funcs self;
     execution_count := execution_count self + 1 |}.
Proof.
  unfold push_execution.
  repeat match goal with
         | |- context [if ?c then _ else _] => destruct c
         end; reflexivity.
Qed.

Lemma push_execution_count cfg self e :
  execution_count (snd (push_execution cfg self e))
    = execution_count self + 1.
Proof. rewrite push_execution_state. reflexivity. Qed.

Lemma pop_execution_count self :
  execution_count (state_of (pop_execution self)) = execution_count self.
Proof.
  unfold pop_execution.
  destruct (parent_execution_funcs self); reflexivity.
Qed.

Lemma step_count cfg self c :
  execution_count self <= execution_count (snd (step cfg self c)).
Proof.
  destruct c as [e|]; simpl.
  - rewrite push_execution_count. lia.
  - pose proof (pop_execution_count self) as H.
    destruct (pop_execution self); simpl in *; lia.
Qed.

Lemma run_count cfg calls : forall self,
  execution_count self <= execution_count (run cfg calls self).
Proof.
  induction calls as [|c rest IH]; intros self; simpl; [lia|].
  pose proof (step_count cfg self c). pose proof (IH (snd (step cfg self c))).
  lia.
Qed.

Lemma push_execution_over_budget cfg self e :
  max_executions cfg < execution_count self ->
  fst (push_execution cfg self e) = true.
Proof.
  intros H. unfold push_execution.
  rewrite bool_decide_eq_true_2 by (simpl; lia). reflexivity.
Qed.

Lemma trace_over_budget cfg calls : forall self b,
  max_executions cfg < execution_count self ->
  Pushed b ∈ trace cfg calls self -> b = true.
Proof.
  induction calls as [|c rest IH]; intros self b Hover; simpl.
  - intros Hin. inversion Hin.
  - intros Hin. apply elem_of_cons in Hin as [Hhd|Htl].
    + destruct c as [e|]; simpl in Hhd.
      * injection Hhd as ->. apply push_execution_over_budget, Hover.
      * destruct (pop_execution self); discriminate.
    + apply (IH (snd (step cfg self c))); [|exact Htl].
      pose proof (step_count cfg self c). lia.
Qed.

Lemma length_removelast_cons {A} (a : A) l :
  length (removelast (a :: l)) = length l.
Proof.
  revert a. induction l as [|b l IH]; intros a; [reflexivity|].
  change (removelast (a :: b :: l)) with (a :: removelast (b :: l)).
  cbn [length]. f_equal. apply IH.
Qed.

Lemma push_execution_invariant cfg self e :
  level_is_path_length self ->
  level_is_path_length (snd (push_execution cfg self e)).
Proof.
  unfold level_is_path_length. rewrite push_execution_state; simpl.
  rewrite length_app; simpl. lia.
Qed.

Lemma pop_execution_invariant self :
  level_is_path_length self ->
  level_is_path_length (state_of (pop_execution self)).
Proof.
  unfold level_is_path_length, pop_execution.
  destruct self as [lvl par seen cnt]; cbn [parent_execution_funcs recursion_level].
  destruct par as [|a l]; cbn [state_of parent_execution_funcs recursion_level].
  - trivial.
  - intros H. rewrite length_removelast_cons. simpl length in H. lia.
Qed.

Lemma step_invariant cfg self c :
  level_is_path_length self -> level_is_path_length (snd (step cfg self c)).
Proof.
  intros H. destruct c as [e|]; simpl.
  - apply push_execution_invariant, H.
  - pose proof (pop_execution_invariant self H) as Hp.
    destruct (pop_execution self); exact Hp.
Qed.

Lemma run_invariant cfg calls : forall self,
  level_is_path_length self -> level_is_path_length (run cfg calls self).
Proof.
  induction calls as [|c rest IH]; intros self H; simpl; [exact H|].
  apply IH, step_invariant, H.
Qed.

(** C1 as amended: when no earlier check fires, [push_execution] returns
    whether the incremented [execution_count] exceeds
    [max_executions_without_builtins]; it returns [False] exactly when
    that budget is respected as well. *)
Theorem push_execution_last_line (cfg : settings) (self : t)
    (e : execution) :
  no_earlier_check_fires cfg self e ->
  fst (push_execution cfg self e)
    = bool_decide (max_executions_without_builtins cfg
                   < execution_count self + 1) /\
  (fst (push_execution cfg self e) = false <->
     execution_count self + 1 <= max_executions_without_builtins cfg).
Proof.
  intros (Hcount & Hkind & Hmod & Hdepth & Hbreadth).
  assert (fst (push_execution cfg self e)
          = bool_decide (max_executions_without_builtins cfg
                         < execution_count self + 1)) as Hval.
  { unfold push_execution.
    cbn [fst execution_count recursion_level execution_funcs].
    rewrite bool_decide_eq_false_2 by lia.
    rewrite Hkind, (bool_decide_eq_false_2 _ Hmod).
    rewrite <- !bool_decide_and.
    rewrite (bool_decide_eq_false_2 _ Hdepth).
    rewrite (bool_decide_eq_false_2 _ Hbreadth).
    reflexivity. }
  split; [exact Hval|].
  rewrite Hval, bool_decide_eq_false. lia.
Qed.

Lemma push_execution_last_line_witness :
  fst (push_execution example_settings __init__ exec_f) = false.
Proof.
  assert (no_earlier_check_fires example_settings __init__ exec_f) as Hno.
  { unfold no_earlier_check_fires; simpl.
    split; [lia|]. split; [reflexivity|]. split; [discriminate|].
    split; intros [H _]; inversion H. }
  apply (proj2 (push_execution_last_line _ _ _ Hno)). simpl. lia.
Defined.

(** C1 as stated fails: on a detector whose count has passed
    [max_executions_without_builtins] but not [max_executions], a fresh
    function of a source module passes every earlier check and is still
    refused. *)
Lemma push_execution_otherwise_false_counterexample :
  ~ (forall cfg self e,
       no_earlier_check_fires cfg self e ->
       fst (push_execution cfg self e) = false).
Proof.
  intros claim.
  assert (fst (push_execution tight_settings
                 (run tight_settings [Push exec_g; Pop] __init__) exec_f)
          = false) as Hfalse.
  { apply claim. vm_compute.
    split; [discriminate|]. split; [reflexivity|]. split; [discriminate|].
    split; intros [Hin _]; [inversion Hin | discriminate]. }
  vm_compute in Hfalse. discriminate.
Qed.

(** C2 as amended: [pop_stmt] on a detector with no current node changes
    nothing, [node_statements] included; [pop_execution] on an empty
    [parent_execution_funcs] raises [IndexError] from [list.pop()] and
    leaves the detector as it was, [recursion_level] not decremented. *)
Theorem unmatched_pop (sd : RecursionDetector.t) (se : t) :
  RecursionDetector.current sd = None ->
  parent_execution_funcs se = [] ->
  RecursionDetector.pop_stmt sd = sd /\
  RecursionDetector.node_statements (RecursionDetector.pop_stmt sd)
    = RecursionDetector.node_statements sd /\
  pop_execution se = Raise IndexError se.
Proof.
  intros Hcur Hpar.
  assert (RecursionDetector.pop_stmt sd = sd) as Hpop.
  { unfold RecursionDetector.pop_stmt. rewrite Hcur. reflexivity. }
  split; [exact Hpop|]. split; [rewrite Hpop; reflexivity|].
  unfold pop_execution. rewrite Hpar. reflexivity.
Qed.

Lemma unmatched_pop_witness :
  RecursionDetector.pop_stmt RecursionDetector.__init__
    = RecursionDetector.__init__ /\
  pop_execution __init__ = Raise IndexError __init__.
Proof.
  destruct (unmatched_pop RecursionDetector.__init__ __init__)
    as (H1 & _ & H3).
  - reflexivity.
  - reflexivity.
  - split; [exact H1 | exact H3].
Defined.

(** C2 as stated fails: [pop_execution] on a fresh detector does not
    return; it raises and the level stays 0. *)
Lemma pop_execution_empty_counterexample :
  ~ (forall self,
       parent_execution_funcs self = [] ->
       exists s',
         pop_execution self = Return tt s' /\
         recursion_level s' = recursion_level self - 1).
Proof.
  intros claim.
  destruct (claim __init__ eq_refl) as (s' & Hret & _).
  discriminate Hret.
Qed.

(** C3: on a detector whose [execution_count] exceeds [max_executions],
    [push_execution] returns [True] for every execution, and so does every
    push of any later sequence of calls; the count goes up by one at each
    push, is left alone by [pop_execution] and never goes down. *)
Theorem global_budget_absolute (cfg : settings) (self : t)
    (calls : list call) (e : execution) :
  max_executions cfg < execution_count self ->
  fst (push_execution cfg self e) = true /\
  (forall b, Pushed b ∈ trace cfg calls self -> b = true) /\
  execution_count self <= execution_count (run cfg calls self) /\
  execution_count (snd (push_execution cfg self e))
    = execution_count self + 1 /\
  execution_count (state_of (pop_execution self)) = execution_count self.
Proof.
  intros Hover. repeat split.
  - apply push_execution_over_budget, Hover.
  - intros b. apply trace_over_budget, Hover.
  - apply run_count.
  - apply push_execution_count.
  - apply pop_execution_count.
Qed.

Lemma global_budget_absolute_witness :
  fst (push_execution tight_settings exhausted exec_f) = true /\
  base exec_f ∉ execution_funcs exhausted.
Proof.
  split.
  - refine (proj1 (global_budget_absolute tight_settings exhausted
                     [Push exec_f; Pop; Push exec_h] exec_f _)).
    vm_compute. reflexivity.
  - vm_compute. discriminate.
Defined.

(** C8: [len(parent_execution_funcs) == recursion_level] holds on a fresh
    detector, and on a detector where it holds it still holds after
    [push_execution], whatever that returns, after [pop_execution], and
    after any sequence of such calls. *)
Theorem level_is_path_length_invariant (cfg : settings) (self : t)
    (e : execution) (calls : list call) :
  level_is_path_length self ->
  level_is_path_length __init__ /\
  level_is_path_length (snd (push_execution cfg self e)) /\
  level_is_path_length (state_of (pop_execution self)) /\
  level_is_path_length (run cfg calls self).
Proof.
  intros Hinv. split; [reflexivity|]. split; [|split].
  - apply push_execution_invariant, Hinv.
  - apply pop_execution_invariant, Hinv.
  - apply run_invariant, Hinv.
Qed.

Lemma level_is_path_length_invariant_witness :
  level_is_path_length
    (run example_settings [Push exec_f; Push exec_g; Pop; Pop; Pop] __init__).
Proof.
  apply (level_is_path_length_invariant example_settings __init__ exec_f
           [Push exec_f; Push exec_g; Pop; Pop; Pop]).
  reflexivity.
Defined.

(** C10: for a base that is neither in [execution_funcs] nor in
    [parent_execution_funcs], both sampled before the base is inserted,
    the depth and breadth tests are skipped: the value of
    [push_execution] is decided by the two count budgets alone, so a
    [True] means one of them is exceeded. *)
Theorem first_push_blocked_only_by_budgets (cfg : settings) (self : t)
    (e : execution) :
  base e ∉ execution_funcs self ->
  base e ∉ parent_execution_funcs self ->
  fst (push_execution cfg self e)
    = (bool_decide (max_executions cfg < execution_count self + 1)
       || negb (is_array_or_generator (base e))
          && negb (bool_decide (execution_module e = builtin))
          && bool_decide (max_executions_without_builtins cfg
                          < execution_count self + 1)) /\
  (fst (push_execution cfg self e) = true ->
   max_executions cfg < execution_count self + 1 \/
   max_executions_without_builtins cfg < execution_count self + 1).
Proof.
  intros Hseen Hpath.
  assert (fst (push_execution cfg self e)
    = (bool_decide (max_executions cfg < execution_count self + 1)
       || negb (is_array_or_generator (base e))
          && negb (bool_decide (execution_module e = builtin))
          && bool_decide (max_executions_without_builtins cfg
                          < execution_count self + 1))) as Hval.
  { unfold push_execution.
    cbn [fst execution_count recursion_level execution_funcs].
    rewrite (bool_decide_eq_false_2 _ Hseen).
    rewrite (bool_decide_eq_false_2 _ Hpath).
    cbn [andb].
    destruct (bool_decide (max_executions cfg < execution_count self + 1));
      [reflexivity|].
    destruct (is_array_or_generator (base e)); [reflexivity|].
    destruct (bool_decide (execution_module e = builtin)); reflexivity. }
  split; [exact Hval|].
  rewrite Hval. intros Htrue.
  apply orb_true_iff in Htrue as [H|H].
  - left. apply bool_decide_eq_true in H. exact H.
  - right. apply andb_true_iff in H as [_ H].
    apply bool_decide_eq_true in H. exact H.
Qed.

Lemma first_push_blocked_only_by_budgets_witness :
  max_executions tight_settings
    < execution_count (run tight_settings [Push exec_g; Pop] __init__) + 1 \/
  max_executions_without_builtins tight_settings
    < execution_count (run tight_settings [Push exec_g; Pop] __init__) + 1.
Proof.
  apply (first_push_blocked_only_by_budgets tight_settings
           (run tight_settings [Push exec_g; Pop] __init__) exec_f).
  - vm_compute. discriminate.
  - vm_compute. intros H. inversion H.
  - vm_compute. reflexivity.
Defined.

Lemma union_seen (b : base_t) (X : gset base_t) :
  b ∈ X -> {[b]} ∪ X = X.
Proof.
  intros Hin. apply subseteq_union_1_L, singleton_subseteq_l, Hin.
Qed.

Lemma elem_of_appended (b : base_t) (l : list base_t) : b ∈ l ++ [b].
Proof. apply elem_of_app. right. apply list_elem_of_singleton. reflexivity. Qed.

Lemma elem_of_added (b : base_t) (X : gset base_t) : b ∈ {[b]} ∪ X.
Proof. apply elem_of_union_l, elem_of_singleton_2. reflexivity. Qed.

Lemma push_chain_succ cfg n e self :
  fst (push_chain cfg (S n) e self)
    = fst (push_execution cfg self e)
      :: fst (push_chain cfg n e (snd (push_execution cfg self e))).
Proof. reflexivity. Qed.

Lemma push_chain_level cfg e n : forall self,
  recursion_level (snd (push_chain cfg n e self))
    = recursion_level self + Z.of_nat n.
Proof.
  induction n as [|n IH]; intros self.
  - simpl. lia.
  - change (snd (push_chain cfg (S n) e self))
      with (snd (push_chain cfg n e (snd (push_execution cfg self e)))).
    rewrite IH, push_execution_state. cbn [recursion_level]. lia.
Qed.

(** The value of a push whose base is already on the path and in the set
    of bases seen. *)
Lemma push_execution_on_path cfg self e :
  is_array_or_generator (base e) = false ->
  execution_module e <> builtin ->
  base e ∈ parent_execution_funcs self ->
  base e ∈ execution_funcs self ->
  fst (push_execution cfg self e)
    = (bool_decide (max_executions cfg < execution_count self + 1)
       || bool_decide (max_function_recursion_level cfg
                       < recursion_level self + 1)
       || bool_decide (max_until_execution_unique cfg
                       < Z.of_nat (size (execution_funcs self)))
       || bool_decide (max_executions_without_builtins cfg
                       < execution_count self + 1)).
Proof.
  intros Hkind Hmod Hpath Hseen.
  pose proof (union_seen _ _ Hseen) as Hsame.
  unfold push_execution.
  cbn [fst execution_count recursion_level execution_funcs].
  rewrite Hsame, Hkind, (bool_decide_eq_false_2 _ Hmod).
  rewrite (bool_decide_eq_true_2 _ Hpath), (bool_decide_eq_true_2 _ Hseen).
  cbn [andb].
  repeat match goal with
         | |- context [bool_decide ?P] => destruct (bool_decide P)
         end; reflexivity.
Qed.

Lemma push_chain_on_path cfg e :
  is_array_or_generator (base e) = false ->
  execution_module e <> builtin ->
  forall (n : nat) self,
    base e ∈ parent_execution_funcs self ->
    base e ∈ execution_funcs self ->
    Z.of_nat (size (execution_funcs self)) <= max_until_execution_unique cfg ->
    execution_count self + Z.of_nat n <= max_executions cfg ->
    execution_count self + Z.of_nat n
      <= max_executions_without_builtins cfg ->
    recursion_level self + Z.of_nat n = max_function_recursion_level cfg ->
    fst (push_chain cfg (S n) e self) = replicate n false ++ [true].
Proof.
  intros Hkind Hmod.
  induction n as [|n IH]; intros self Hpath Hseen Hsize Hc1 Hc2 Hlvl;
    rewrite push_chain_succ, (push_execution_on_path _ _ _ Hkind Hmod Hpath Hseen).
  - cbn [push_chain fst replicate app]. f_equal.
    rewrite (bool_decide_eq_true_2
               (max_function_recursion_level cfg < recursion_level self + 1))
      by lia.
    rewrite orb_true_r. reflexivity.
  - rewrite !bool_decide_eq_false_2 by lia.
    cbn [orb replicate app]. f_equal.
    pose proof (union_seen _ _ Hseen) as Hsame.
    apply IH; rewrite push_execution_state;
      cbn [parent_execution_funcs execution_funcs execution_count
           recursion_level];
      rewrite ?Hsame; try lia; try assumption.
    apply elem_of_appended.
Qed.

(** C4 as amended: let [max_function_recursion_level] be [D >= 1], and
    take a function of a source module that is not on the current path,
    on a detector at level 0 whose set of seen bases, the function
    included, is within [max_until_execution_unique] and whose count
    leaves room for [D] more executions under both count budgets.  Of
    [D + 1] nested pushes of it the first [D] return [False] and the last,
    which takes the level to [D + 1], returns [True]. *)
Theorem depth_ceiling (cfg : settings) (self : t) (e : execution)
    (D : nat) :
  max_function_recursion_level cfg = Z.of_nat D ->
  (1 <= D)%nat ->
  is_array_or_generator (base e) = false ->
  execution_module e <> builtin ->
  recursion_level self = 0 ->
  base e ∉ parent_execution_funcs self ->
  Z.of_nat (size ({[base e]} ∪ execution_funcs self))
    <= max_until_execution_unique cfg ->
  execution_count self + Z.of_nat D <= max_executions cfg ->
  execution_count self + Z.of_nat D <= max_executions_without_builtins cfg ->
  fst (push_chain cfg (S D) e self) = replicate D false ++ [true] /\
  recursion_level (snd (push_chain cfg (S D) e self)) = Z.of_nat D + 1.
Proof.
  intros HD Hpos Hkind Hmod Hlvl Hpath Hsize Hc1 Hc2.
  split; [|rewrite push_chain_level; lia].
  destruct D as [|d]; [lia|].
  rewrite push_chain_succ.
  assert (fst (push_execution cfg self e) = false) as ->.
  { unfold push_execution.
    cbn [fst execution_count recursion_level execution_funcs].
    rewrite bool_decide_eq_false_2 by lia.
    rewrite Hkind, (bool_decide_eq_false_2 _ Hmod).
    rewrite (bool_decide_eq_false_2 _ Hpath). cbn [andb].
    rewrite (bool_decide_eq_false_2
               (max_until_execution_unique cfg < _)) by lia.
    rewrite andb_false_r.
    apply bool_decide_eq_false_2. lia. }
  change (replicate (S d) false ++ [true])
    with (false :: (replicate d false ++ [true])).
  f_equal.
  apply (push_chain_on_path cfg e Hkind Hmod);
    rewrite push_execution_state;
    cbn [parent_execution_funcs execution_funcs execution_count
         recursion_level];
    try lia.
  - apply elem_of_appended.
  - apply elem_of_added.
Qed.

Lemma depth_ceiling_witness :
  fst (push_chain example_settings 6 exec_f __init__)
    = [false; false; false; false; false; true].
Proof.
  refine (proj1 (depth_ceiling example_settings __init__ exec_f 5
                   _ _ _ _ _ _ _ _ _)).
  - reflexivity.
  - lia.
  - reflexivity.
  - discriminate.
  - reflexivity.
  - intros H. inversion H.
  - vm_compute. discriminate.
  - vm_compute. discriminate.
  - vm_compute. discriminate.
Defined.

(** C4 as stated fails: with the count budgets respected and positive
    settings, on a detector back at level 0 that has already seen enough
    other functions, the second nested push is refused by the breadth test
    at depth 2, long before the level exceeds [D]. *)
Lemma depth_ceiling_counterexample :
  ~ (forall cfg self e (D : nat),
       max_function_recursion_level cfg = Z.of_nat D ->
       (1 <= D)%nat ->
       0 < max_until_execution_unique cfg ->
       is_array_or_generator (base e) = false ->
       execution_module e <> builtin ->
       recursion_level self = 0 ->
       parent_execution_funcs self = [] ->
       execution_count self + Z.of_nat (S D) <= max_executions cfg ->
       execution_count self + Z.of_nat (S D)
         <= max_executions_without_builtins cfg ->
       fst (push_chain cfg (S D) e self) = replicate D false ++ [true]).
Proof.
  intros claim.
  assert (fst (push_chain narrow_settings 6 exec_f seen_two)
          = replicate 5 false ++ [true]) as Hchain.
  { apply (claim narrow_settings seen_two exec_f 5%nat).
    - reflexivity.
    - lia.
    - reflexivity.
    - reflexivity.
    - discriminate.
    - reflexivity.
    - reflexivity.
    - vm_compute. discriminate.
    - vm_compute. discriminate. }
  vm_compute in Hchain. discriminate.
Qed.

End ExecutionRecursionDetectorProperties.

(** * Further properties of RecursionDetector *)

Section RecursionDetectorChain.

Import RecursionDetector.

Lemma chain_from_unfold n :
  chain_from n
    = n :: match parent n with None => [] | Some p => chain_from p end.
Proof. destruct n; reflexivity. Qed.

Lemma chain_pushed self st :
  chain (pushed self st) = new_node st (current self) :: chain self.
Proof.
  unfold chain, pushed; cbn [current].
  rewrite chain_from_unfold. reflexivity.
Qed.

Lemma chain_pop self : chain (pop_stmt self) = tail (chain self).
Proof.
  unfold chain, pop_stmt.
  destruct (current self) as [c|] eqn:E; cbn [current].
  - rewrite (chain_from_unfold c). reflexivity.
  - rewrite E. reflexivity.
Qed.

(** The walk of [_check_recursion] returns the nearest ancestor that
    compares equal. *)
Lemma check_loop_find cur test :
  check_loop cur test
    = List.find (fun n => truthy (__eq__ cur (Some n)))
        match parent test with None => [] | Some p => chain_from p end.
Proof.
  induction test as [test IH] using node_parent_ind.
  destruct test as [sc pos [p|] st ig]; cbn [check_loop parent]; [|reflexivity].
  rewrite (chain_from_unfold p). cbn [List.find].
  destruct (truthy (__eq__ cur (Some p))); [reflexivity|].
  apply IH. reflexivity.
Qed.

Lemma push_stmt_find self st :
  push_stmt self st =
  match List.find
          (fun n => truthy (__eq__ (new_node st (current self)) (Some n)))
          (chain self) with
  | Some _ => Return true self
  | None => Return false (pushed self st)
  end.
Proof.
  rewrite push_stmt_unfold, check_loop_find. reflexivity.
Qed.

Lemma new_node_matches st par n :
  truthy (__eq__ (new_node st par) (Some n)) = true <->
  get_parent_until st <> builtin /\
  script n = get_parent_until st /\ position n = start_pos st /\
  is_ignored n = false.
Proof.
  rewrite eq_truthy_iff. cbn [script position is_ignored new_node].
  rewrite bool_decide_eq_false. intuition congruence.
Qed.

(** X1: [push_stmt] returns [True], leaving the detector as it was,
    exactly when the statement is outside the builtin module and some node
    anywhere on the chain, not only the current one, has its module and
    position and is not ignored; otherwise it returns [False] with the new
    node pushed. *)
Theorem push_stmt_detects_any_ancestor (self : t) (st : statement) :
  (push_stmt self st = Return true self /\
   get_parent_until st <> builtin /\
   exists n, In n (chain self) /\ script n = get_parent_until st /\
             position n = start_pos st /\ is_ignored n = false) \/
  (push_stmt self st = Return false (pushed self st) /\
   forall n, In n (chain self) ->
             script n = get_parent_until st -> position n = start_pos st ->
             is_ignored n = true \/ get_parent_until st = builtin).
Proof.
  rewrite push_stmt_find.
  destruct (List.find _ (chain self)) as [m|] eqn:Hfind.
  - left. apply find_some in Hfind as [Hin Hm].
    apply new_node_matches in Hm as (Hnb & Hsc & Hpos & Hig).
    split; [reflexivity|]. split; [exact Hnb|].
    exists m. auto.
  - right. split; [reflexivity|].
    intros n Hin Hsc Hpos.
    pose proof (find_none _ _ Hfind n Hin) as Hno. cbv beta in Hno.
    destruct (is_ignored n) eqn:Hig; [left; reflexivity|right].
    destruct (decide (get_parent_until st = builtin)) as [Hb|Hnb];
      [exact Hb|].
    assert (truthy (__eq__ (new_node st (current self)) (Some n)) = true)
      as Hyes by (apply new_node_matches; auto).
    congruence.
Qed.

(** [node_statements] is the chain read from the root. *)
Lemma node_statements_loop_chain n : forall res,
  node_statements_loop n res = rev (map stmt (chain_from n)) ++ res.
Proof.
  induction n as [n IH] using node_parent_ind. intros res.
  rewrite (chain_from_unfold n).
  destruct n as [sc pos [p|] st ig]; cbn [node_statements_loop parent stmt].
  - rewrite (IH p eq_refl). cbn [map rev stmt].
    rewrite <- app_assoc. reflexivity.
  - reflexivity.
Qed.

Lemma node_statements_chain self :
  node_statements self = rev (map stmt (chain self)).
Proof.
  unfold node_statements, chain.
  destruct (current self) as [c|]; [|reflexivity].
  rewrite node_statements_loop_chain. apply app_nil_r.
Qed.

(** X2: after [push_stmt], [node_statements] is the earlier list, with
    the statement added at the end when the push returned [False] and with
    nothing added when it returned [True]. *)
Theorem push_stmt_node_statements (self s' : t) (st : statement)
    (b : bool) :
  push_stmt self st = Return b s' ->
  node_statements s'
    = node_statements self ++ (if b then [] else [st]).
Proof.
  destruct (push_stmt_cases self st) as [E|E]; rewrite E;
    intros [= <- <-].
  - symmetry. apply app_nil_r.
  - apply node_statements_pushed.
Qed.

Lemma push_stmt_node_statements_witness :
  node_statements (pushed (pushed __init__ stmt_a) stmt_b)
    = node_statements (pushed __init__ stmt_a) ++ [stmt_b].
Proof.
  apply (push_stmt_node_statements (pushed __init__ stmt_a)
           (pushed (pushed __init__ stmt_a) stmt_b) stmt_b false).
  reflexivity.
Defined.

(** X3: [pop_stmt] removes exactly the newest statement from
    [node_statements], and nothing when the list is empty. *)
Theorem pop_stmt_node_statements (self : t) :
  node_statements (pop_stmt self) = removelast (node_statements self).
Proof.
  rewrite !node_statements_chain, chain_pop.
  destruct (chain self) as [|n l]; [reflexivity|].
  cbn [tail map rev]. symmetry. apply removelast_last.
Qed.

End RecursionDetectorChain.

Section RecursionDetectorInvariant.

Import RecursionDetector.

Lemma chain_invariant_init : chain_invariant __init__.
Proof. split; constructor. Qed.

Lemma chain_invariant_pop self :
  chain_invariant self -> chain_invariant (pop_stmt self).
Proof.
  unfold chain_invariant. rewrite chain_pop.
  destruct (chain self) as [|n l]; [trivial|].
  cbn [tail map List.filter]. intros [Hbuilt Hnodup].
  split; [inversion Hbuilt; assumption|].
  destruct (outside_builtin (stmt n)); [|exact Hnodup].
  cbn [map] in Hnodup. inversion Hnodup; assumption.
Qed.

Lemma chain_invariant_push self st :
  chain_invariant self -> chain_invariant (state_of (push_stmt self st)).
Proof.
  intros [Hbuilt Hnodup]. rewrite push_stmt_find.
  destruct (List.find _ (chain self)) as [m|] eqn:Hfind; cbn [state_of];
    [split; assumption|].
  unfold chain_invariant. rewrite chain_pushed.
  split.
  - constructor; [|exact Hbuilt]. repeat split.
  - cbn [map List.filter stmt new_node].
    destruct (outside_builtin st) eqn:Hout; [|exact Hnodup].
    cbn [map]. constructor; [|exact Hnodup].
    intros Hin. apply list_elem_of_In in Hin.
    apply in_map_iff in Hin as (x & Hplace & Hx).
    apply filter_In in Hx as [Hx Hxout].
    apply in_map_iff in Hx as (m & <- & Hm).
    pose proof (find_none _ _ Hfind m Hm) as Hno. cbv beta in Hno.
    rewrite Forall_forall in Hbuilt.
    destruct (Hbuilt m (proj2 (list_elem_of_In _ _) Hm))
      as (Hsc & Hpos & Hig).
    injection Hplace as Hmod Hstart.
    unfold outside_builtin in Hout, Hxout.
    apply negb_true_iff, bool_decide_eq_false in Hout, Hxout.
    assert (truthy (__eq__ (new_node st (current self)) (Some m)) = true)
      as Hyes.
    { apply new_node_matches. repeat split; try congruence.
      rewrite Hig. apply bool_decide_eq_false. congruence. }
    congruence.
Qed.

Lemma chain_invariant_calls calls : forall self,
  chain_invariant self -> chain_invariant (apply_calls calls self).
Proof.
  induction calls as [|c rest IH]; intros self Hinv; [exact Hinv|].
  apply IH. destruct c as [st|]; cbn [apply_call].
  - apply chain_invariant_push, Hinv.
  - apply chain_invariant_pop, Hinv.
Qed.

(** X4: whatever pushes and pops a fresh detector has gone through,
    paired or not, the statements outside the builtin module that
    [node_statements] lists sit at pairwise different (module, position)
    places: no place is under evaluation twice. *)
Theorem node_statements_places_distinct (calls : list call) :
  NoDup (map place
           (List.filter outside_builtin
              (node_statements (apply_calls calls __init__)))).
Proof.
  destruct (chain_invariant_calls calls __init__ chain_invariant_init)
    as [_ Hnodup].
  rewrite node_statements_chain, filter_rev, map_rev.
  apply NoDup_ListNoDup, List.NoDup_rev, NoDup_ListNoDup, Hnodup.
Qed.

End RecursionDetectorInvariant.

(** * Properties of recursion_decorator *)

Section RecursionDecoratorProperties.

Import RecursionDetector.

Context {V : Type}.

Lemma push_stmt_under_same_place self a a' :
  get_parent_until a <> builtin ->
  get_parent_until a' = get_parent_until a ->
  start_pos a' = start_pos a ->
  push_stmt (pushed self a) a' = Return true (pushed self a).
Proof.
  intros Hnb Hmod Hpos.
  rewrite push_stmt_find, chain_pushed. cbn [List.find].
  assert (truthy (__eq__ (new_node a' (current (pushed self a)))
                    (Some (new_node a (current self)))) = true) as ->;
    [|reflexivity].
  apply new_node_matches. cbn [script position is_ignored new_node].
  repeat split; try congruence.
  apply bool_decide_eq_false. exact Hnb.
Qed.

(** X5: when the decorated evaluation of a statement outside the builtin
    module evaluates, through the decorator again, a statement at the same
    place, the whole evaluation returns the empty list and the detector is
    as before, on every detector and whatever the inner function [g] would
    have computed. *)
Theorem recursion_decorator_cuts_self_recursion
    (g : t -> statement -> result t (list V)) (self : t)
    (a a' : statement) :
  get_parent_until a <> builtin ->
  get_parent_until a' = get_parent_until a ->
  start_pos a' = start_pos a ->
  recursion_decorator (fun ev _ => recursion_decorator g ev a') self a
    = Return [] self.
Proof.
  intros Hnb Hmod Hpos. unfold recursion_decorator at 1.
  destruct (push_stmt_cases self a) as [E|E]; rewrite E; [reflexivity|].
  unfold recursion_decorator.
  rewrite (push_stmt_under_same_place self a a' Hnb Hmod Hpos).
  rewrite pop_pushed. reflexivity.
Qed.

(** X6: if [func] always returns and hands the detector back as it got
    it, so does the decorated function, and what it returns is the empty
    list or what [func] returned on the detector with the statement
    pushed. *)
Theorem recursion_decorator_restores
    (func : t -> statement -> result t (list V)) :
  (forall ev st, exists res, func ev st = Return res ev) ->
  forall ev st, exists res,
    recursion_decorator func ev st = Return res ev /\
    (res = [] \/ func (pushed ev st) st = Return res (pushed ev st)).
Proof.
  intros Hfunc ev st. unfold recursion_decorator.
  destruct (push_stmt_cases ev st) as [E|E]; rewrite E.
  - exists []. auto.
  - destruct (Hfunc (pushed ev st) st) as [res Hres].
    exists res. rewrite Hres, pop_pushed. auto.
Qed.

(** X7: [run] has no [finally]: when [func] raises, leaving the detector
    as it got it, the exception passes through with the statement still
    on the chain, and from then on the decorated evaluation of a statement
    at that place outside the builtin module returns the empty list
    without calling its function. *)
Theorem recursion_decorator_leaks_on_raise
    (func g : t -> statement -> result t (list V)) (ev s1 : t)
    (st st' : statement) (x : exn) :
  push_stmt ev st = Return false s1 ->
  func s1 st = Raise x s1 ->
  get_parent_until st <> builtin ->
  get_parent_until st' = get_parent_until st ->
  start_pos st' = start_pos st ->
  recursion_decorator func ev st = Raise x s1 /\
  node_statements s1 = node_statements ev ++ [st] /\
  recursion_decorator g s1 st' = Return [] s1.
Proof.
  intros Hpush Hraise Hnb Hmod Hpos.
  pose proof (push_stmt_false_inv _ _ _ Hpush) as ->.
  split; [|split].
  - unfold recursion_decorator. rewrite Hpush, Hraise. reflexivity.
  - apply node_statements_pushed.
  - unfold recursion_decorator.
    rewrite (push_stmt_under_same_place ev st st' Hnb Hmod Hpos).
    reflexivity.
Qed.

End RecursionDecoratorProperties.

Lemma recursion_decorator_cuts_self_recursion_witness :
  RecursionDetector.recursion_decorator
    (fun ev _ =>
       RecursionDetector.recursion_decorator
         (fun ev' _ => Return [1; 2] ev') ev RecursionDetector.stmt_a')
    (RecursionDetector.pushed RecursionDetector.__init__
       RecursionDetector.stmt_b)
    RecursionDetector.stmt_a
  = Return []
      (RecursionDetector.pushed RecursionDetector.__init__
         RecursionDetector.stmt_b).
Proof.
  apply (recursion_decorator_cuts_self_recursion (V := Z)).
  - discriminate.
  - reflexivity.
  - reflexivity.
Defined.

Lemma recursion_decorator_restores_witness :
  exists res,
    RecursionDetector.recursion_decorator
      (fun ev _ => Return [7] ev)
      RecursionDetector.__init__ RecursionDetector.stmt_a
    = Return res RecursionDetector.__init__ /\
    (res = [] \/
     Return (S := RecursionDetector.t) [7]
       (RecursionDetector.pushed RecursionDetector.__init__
          RecursionDetector.stmt_a)
     = Return res
         (RecursionDetector.pushed RecursionDetector.__init__
            RecursionDetector.stmt_a)).
Proof.
  apply (recursion_decorator_restores (V := Z) (fun ev _ => Return [7] ev)).
  intros ev st. exists [7]. reflexivity.
Defined.

Lemma recursion_decorator_leaks_on_raise_witness :
  RecursionDetector.recursion_decorator
    (fun ev _ => Return [7] ev)
    (RecursionDetector.pushed RecursionDetector.__init__
       RecursionDetector.stmt_a)
    RecursionDetector.stmt_a'
  = Return []
      (RecursionDetector.pushed RecursionDetector.__init__
         RecursionDetector.stmt_a).
Proof.
  apply (recursion_decorator_leaks_on_raise (V := Z)
           (fun ev _ => Raise AttributeError ev)
           (fun ev _ => Return [7] ev)
           RecursionDetector.__init__
           (RecursionDetector.pushed RecursionDetector.__init__
              RecursionDetector.stmt_a)
           RecursionDetector.stmt_a RecursionDetector.stmt_a'
           AttributeError).
  - reflexivity.
  - reflexivity.
  - discriminate.
  - reflexivity.
  - reflexivity.
Defined.

(** * Further properties of ExecutionRecursionDetector *)

Section ExecutionRecursionDetectorRuns.

Import ExecutionRecursionDetector.

Variable cfg : settings.

Lemma pop_execution_after_push (self : t) (e : execution) :
  pop_execution (snd (push_execution cfg self e)) =
  Return tt
    {| recursion_level := recursion_level self;
       parent_execution_funcs := parent_execution_funcs self;
       execution_funcs := {[base e]} ∪ execution_funcs self;
       execution_count := execution_count self + 1 |}.
Proof.
  rewrite push_execution_state. unfold pop_execution.
  cbn [parent_execution_funcs recursion_level execution_funcs
       execution_count].
  destruct (parent_execution_funcs self ++ [base e]) as [|b l] eqn:E.
  - destruct (parent_execution_funcs self); discriminate E.
  - rewrite <- E, removelast_last.
    replace (recursion_level self + 1 - 1) with (recursion_level self)
      by lia.
    reflexivity.
Qed.

(** X8: a push followed at once by a pop always returns and gives back
    the level and the path as they were; what stays is the count, one
    higher, and the base in the set of bases seen. *)
Theorem pop_after_push (self : t) (e : execution) :
  pop_execution (snd (push_execution cfg self e)) =
  Return tt
    {| recursion_level := recursion_level self;
       parent_execution_funcs := parent_execution_funcs self;
       execution_funcs := {[base e]} ∪ execution_funcs self;
       execution_count := execution_count self + 1 |}.
Proof. apply pop_execution_after_push. Qed.

Lemma run_app calls1 calls2 : forall self,
  run cfg (calls1 ++ calls2) self = run cfg calls2 (run cfg calls1 self).
Proof.
  induction calls1 as [|c rest IH]; intros self; [reflexivity|].
  cbn [app run]. apply IH.
Qed.

Lemma trace_app calls1 calls2 : forall self,
  trace cfg (calls1 ++ calls2) self
    = trace cfg calls1 self ++ trace cfg calls2 (run cfg calls1 self).
Proof.
  induction calls1 as [|c rest IH]; intros self; [reflexivity|].
  cbn [app run trace]. rewrite IH. reflexivity.
Qed.

Lemma step_pop_after self :
  parent_execution_funcs self <> [] ->
  step cfg self Pop
    = (Popped,
       {| recursion_level := recursion_level self - 1;
          parent_execution_funcs := removelast (parent_execution_funcs self);
          execution_funcs := execution_funcs self;
          execution_count := execution_count self |}).
Proof.
  intros Hne. unfold step, pop_execution.
  destruct (parent_execution_funcs self); [congruence|reflexivity].
Qed.

(** Inside a nested sequence the path only grows at its end and shrinks
    back: level and path are restored and no pop raises. *)
Lemma nested_run calls :
  nested calls ->
  forall self,
    recursion_level (run cfg calls self) = recursion_level self /\
    parent_execution_funcs (run cfg calls self)
      = parent_execution_funcs self /\
    Forall (fun ev => forall x, ev <> PopRaised x) (trace cfg calls self).
Proof.
  induction 1 as [|e inner rest Hinner IHinner Hrest IHrest]; intros self.
  - repeat split. constructor.
  - change (Push e :: inner ++ Pop :: rest)
      with ([Push e] ++ inner ++ [Pop] ++ rest).
    rewrite !run_app, !trace_app.
    set (s1 := run cfg [Push e] self).
    assert (s1 = snd (push_execution cfg self e)) as Hs1 by reflexivity.
    destruct (IHinner s1) as (Hlvl & Hpath & Hev).
    set (s2 := run cfg inner s1) in *.
    assert (parent_execution_funcs s2
            = parent_execution_funcs self ++ [base e]) as Hpath2.
    { rewrite Hpath, Hs1, push_execution_state. reflexivity. }
    assert (recursion_level s2 = recursion_level self + 1) as Hlvl2.
    { rewrite Hlvl, Hs1, push_execution_state. reflexivity. }
    assert (parent_execution_funcs s2 <> []) as Hne.
    { rewrite Hpath2. destruct (parent_execution_funcs self); discriminate. }
    pose proof (step_pop_after s2 Hne) as Hpop.
    assert (fst (step cfg s2 Pop) = Popped) as Hev2
      by (rewrite Hpop; reflexivity).
    assert (recursion_level (snd (step cfg s2 Pop)) = recursion_level self)
      as Hlvl3 by (rewrite Hpop; cbn [snd recursion_level]; lia).
    assert (parent_execution_funcs (snd (step cfg s2 Pop))
            = parent_execution_funcs self) as Hpath3.
    { rewrite Hpop. cbn [snd parent_execution_funcs].
      rewrite Hpath2. apply removelast_last. }
    change (run cfg [Pop] s2) with (snd (step cfg s2 Pop)).
    change (trace cfg [Pop] s2) with [fst (step cfg s2 Pop)].
    destruct (IHrest (snd (step cfg s2 Pop))) as (Hlvl4 & Hpath4 & Hev4).
    rewrite Hlvl4, Hpath4, Hlvl3, Hpath3, Hev2.
    split; [reflexivity|]. split; [reflexivity|].
    apply Forall_app. split; [repeat constructor; discriminate|].
    apply Forall_app. split; [exact Hev|].
    apply Forall_app. split; [repeat constructor; discriminate|].
    exact Hev4.
Qed.

(** X9: over a sequence of calls in which every push is closed by its own
    pop, as the decorator issues them, no [pop_execution] raises and the
    level and the path end as they started, whatever the pushes
    returned. *)
Theorem nested_calls_restore_path (calls : list call) (self : t) :
  nested calls ->
  recursion_level (run cfg calls self) = recursion_level self /\
  parent_execution_funcs (run cfg calls self)
    = parent_execution_funcs self /\
  Forall (fun ev => forall x, ev <> PopRaised x) (trace cfg calls self).
Proof. intros Hnested. apply nested_run, Hnested. Qed.

Lemma run_cons c calls self :
  run cfg (c :: calls) self = run cfg calls (snd (step cfg self c)).
Proof. reflexivity. Qed.

Lemma step_pop_funcs self :
  execution_funcs (snd (step cfg self Pop)) = execution_funcs self.
Proof.
  unfold step, pop_execution.
  destruct (parent_execution_funcs self); reflexivity.
Qed.

Lemma step_pop_count self :
  execution_count (snd (step cfg self Pop)) = execution_count self.
Proof.
  unfold step, pop_execution.
  destruct (parent_execution_funcs self); reflexivity.
Qed.

Lemma run_funcs_exact (calls : list call) (self : t) :
  execution_funcs (run cfg calls self)
    = list_to_set (pushed_bases calls) ∪ execution_funcs self.
Proof.
  revert self. induction calls as [|[e|] rest IH]; intros self;
    rewrite ?run_cons, ?IH; cbn [pushed_bases].
  - cbn [run]. rewrite list_to_set_nil. symmetry. apply union_empty_l_L.
  - cbn [step snd]. rewrite push_execution_state.
    cbn [execution_funcs]. rewrite list_to_set_cons.
    rewrite (union_comm_L {[base e]} (list_to_set (pushed_bases rest))).
    rewrite <- union_assoc_L. reflexivity.
  - rewrite step_pop_funcs. reflexivity.
Qed.

(** X10: after any sequence of calls the set of bases seen is the set
    before together with the base of every push of the sequence, refused
    or not; no call ever removes a base. *)
Theorem run_execution_funcs (calls : list call) (self : t) :
  execution_funcs (run cfg calls self)
    = list_to_set (pushed_bases calls) ∪ execution_funcs self.
Proof. apply run_funcs_exact. Qed.

Lemma run_count_exact (calls : list call) (self : t) :
  execution_count (run cfg calls self)
    = execution_count self + Z.of_nat (length (pushed_bases calls)).
Proof.
  revert self. induction calls as [|[e|] rest IH]; intros self;
    rewrite ?run_cons, ?IH; cbn [pushed_bases length].
  - cbn [run]. lia.
  - cbn [step snd]. rewrite push_execution_count. lia.
  - rewrite step_pop_count. reflexivity.
Qed.

(** X11: the count after any sequence of calls is the count before plus
    the number of pushes in it: every push counts, refused or not, and no
    pop, raising or not, changes it. *)
Theorem run_execution_count (calls : list call) (self : t) :
  execution_count (run cfg calls self)
    = execution_count self + Z.of_nat (length (pushed_bases calls)).
Proof. apply run_count_exact. Qed.

End ExecutionRecursionDetectorRuns.

Section ExecutionRecursionDetectorBudgets.

Import ExecutionRecursionDetector.

Variable cfg : settings.

Lemma exempt_false e :
  exempt e = false ->
  is_array_or_generator (base e) = false /\ execution_module e <> builtin.
Proof.
  unfold exempt. intros H. apply orb_false_iff in H as [Hkind Hmod].
  apply bool_decide_eq_false in Hmod. auto.
Qed.

(** X12: an array, a generator or an execution of the builtin module is
    refused by the [max_executions] test and by nothing else, whatever is
    on the path or in the set of bases seen. *)
Theorem exempt_refused_only_by_max_executions (self : t) (e : execution) :
  exempt e = true ->
  fst (push_execution cfg self e)
    = bool_decide (max_executions cfg < execution_count self + 1).
Proof.
  unfold exempt, push_execution. intros Hex.
  cbn [execution_count].
  destruct (bool_decide (max_executions cfg < execution_count self + 1));
    [reflexivity|].
  destruct (is_array_or_generator (base e)); [reflexivity|].
  cbn [orb] in Hex. rewrite Hex. reflexivity.
Qed.

Lemma push_execution_not_exempt_over self e :
  exempt e = false ->
  max_executions_without_builtins cfg < execution_count self + 1 ->
  fst (push_execution cfg self e) = true.
Proof.
  intros Hex Hover. apply exempt_false in Hex as [Hkind Hmod].
  unfold push_execution.
  cbn [fst execution_count recursion_level execution_funcs].
  rewrite Hkind, (bool_decide_eq_false_2 _ Hmod).
  rewrite (bool_decide_eq_true_2
             (max_executions_without_builtins cfg < _) Hover).
  repeat match goal with
         | |- context [if ?c then _ else _] => destruct c
         end; reflexivity.
Qed.

(** X13: once [execution_count] exceeds
    [max_executions_without_builtins], every push of an execution that is
    no array, no generator and not of the builtin module returns [True],
    now and after any further calls. *)
Theorem without_builtins_budget_absolute (self : t) (calls : list call)
    (e : execution) :
  max_executions_without_builtins cfg < execution_count self ->
  exempt e = false ->
  fst (push_execution cfg (run cfg calls self) e) = true.
Proof.
  intros Hover Hex. apply push_execution_not_exempt_over; [exact Hex|].
  pose proof (run_count cfg calls self). lia.
Qed.

Lemma push_execution_seen_over_breadth self e :
  exempt e = false ->
  base e ∈ execution_funcs self ->
  max_until_execution_unique cfg < Z.of_nat (size (execution_funcs self)) ->
  fst (push_execution cfg self e) = true.
Proof.
  intros Hex Hseen Hover. apply exempt_false in Hex as [Hkind Hmod].
  unfold push_execution.
  cbn [fst execution_count recursion_level execution_funcs].
  rewrite (union_seen _ _ Hseen).
  rewrite Hkind, (bool_decide_eq_false_2 _ Hmod).
  rewrite (bool_decide_eq_true_2 _ Hseen).
  rewrite (bool_decide_eq_true_2 (max_until_execution_unique cfg < _) Hover).
  cbn [andb].
  repeat match goal with
         | |- context [if ?c then _ else _] => destruct c
         end; reflexivity.
Qed.

Lemma pushed_bases_one_by_one es :
  pushed_bases (one_by_one es) = map base es.
Proof.
  induction es as [|e es IH]; [reflexivity|].
  cbn [one_by_one flat_map app pushed_bases map].
  f_equal. exact IH.
Qed.

(** X14: after more than [max_until_execution_unique] executions with
    pairwise different bases have each been pushed and popped on a fresh
    detector, pushing an execution with one of those bases again returns
    [True], unless it is an array, a generator or of the builtin
    module. *)
Theorem breadth_ceiling (es : list execution) (e : execution) :
  NoDup (map base es) ->
  max_until_execution_unique cfg < Z.of_nat (length es) ->
  base e ∈ map base es ->
  exempt e = false ->
  fst (push_execution cfg (run cfg (one_by_one es) __init__) e) = true.
Proof.
  intros Hnodup Hmany Hin Hex.
  assert (execution_funcs (run cfg (one_by_one es) __init__)
          = list_to_set (map base es)) as Hseen.
  { rewrite run_funcs_exact, pushed_bases_one_by_one.
    apply union_empty_r_L. }
  apply push_execution_seen_over_breadth; [exact Hex| |]; rewrite Hseen.
  - apply elem_of_list_to_set, Hin.
  - rewrite (size_list_to_set _ Hnodup), length_map. exact Hmany.
Qed.

Lemma elem_of_removelast (b : base_t) l : b ∈ removelast l -> b ∈ l.
Proof.
  destruct l as [|a l] using rev_ind; [trivial|].
  rewrite removelast_last. intros H. apply elem_of_app. left. exact H.
Qed.

Lemma step_path_seen self c :
  (forall b, b ∈ parent_execution_funcs self -> b ∈ execution_funcs self) ->
  forall b, b ∈ parent_execution_funcs (snd (step cfg self c)) ->
            b ∈ execution_funcs (snd (step cfg self c)).
Proof.
  intros Hinv b. destruct c as [e|].
  - cbn [step snd]. rewrite push_execution_state.
    cbn [parent_execution_funcs execution_funcs].
    intros Hb. apply elem_of_app in Hb as [Hb|Hb].
    + apply elem_of_union_r, Hinv, Hb.
    + apply list_elem_of_singleton in Hb as ->. apply elem_of_added.
  - destruct self as [lvl path seen cnt].
    unfold step, pop_execution.
    cbn [parent_execution_funcs execution_funcs] in *.
    destruct path as [|a l];
      cbn [snd parent_execution_funcs execution_funcs].
    + intros Hb. inversion Hb.
    + intros Hb. apply Hinv, elem_of_removelast, Hb.
Qed.

Lemma step_level_count self c :
  recursion_level self <= execution_count self ->
  recursion_level (snd (step cfg self c))
    <= execution_count (snd (step cfg self c)).
Proof.
  intros Hinv. destruct c as [e|].
  - cbn [step snd]. rewrite push_execution_state.
    cbn [recursion_level execution_count]. lia.
  - unfold step, pop_execution.
    destruct (parent_execution_funcs self); cbn [snd recursion_level
      execution_count]; lia.
Qed.

Lemma size_list_to_set_le (l : list base_t) :
  (size (list_to_set l : gset base_t) <= length l)%nat.
Proof.
  induction l as [|a l IH]; [rewrite list_to_set_nil, size_empty; lia|].
  rewrite list_to_set_cons, size_union_alt, size_singleton. cbn [length].
  assert ((list_to_set l : gset base_t) ∖ {[a]} ⊆ list_to_set l) as Hsub
    by (intros b Hb; apply elem_of_difference in Hb as [Hb _]; exact Hb).
  apply subseteq_size in Hsub. lia.
Qed.

(** X15: on a detector that started fresh, after any sequence of calls,
    every base on the path is in the set of bases seen, that set has at
    most [execution_count] elements, and the level lies between 0 and
    [execution_count]. *)
Theorem reachable_bounds (calls : list call) :
  (forall b, b ∈ parent_execution_funcs (run cfg calls __init__) ->
             b ∈ execution_funcs (run cfg calls __init__)) /\
  Z.of_nat (size (execution_funcs (run cfg calls __init__)))
    <= execution_count (run cfg calls __init__) /\
  0 <= recursion_level (run cfg calls __init__)
    <= execution_count (run cfg calls __init__).
Proof.
  split; [|split].
  - assert (forall self,
      (forall b, b ∈ parent_execution_funcs self ->
                 b ∈ execution_funcs self) ->
      forall b, b ∈ parent_execution_funcs (run cfg calls self) ->
                b ∈ execution_funcs (run cfg calls self)) as Hrun.
    { induction calls as [|c rest IH]; intros self Hinv; [exact Hinv|].
      cbn [run]. apply IH, step_path_seen, Hinv. }
    apply Hrun. intros b Hb. inversion Hb.
  - rewrite run_funcs_exact, run_count_exact.
    change (execution_funcs __init__) with (∅ : gset base_t).
    change (execution_count __init__) with 0.
    rewrite union_empty_r_L.
    pose proof (size_list_to_set_le (pushed_bases calls)). lia.
  - split.
    + pose proof (run_invariant cfg calls __init__ eq_refl) as Hlen.
      unfold level_is_path_length in Hlen. lia.
    + assert (forall self,
        recursion_level self <= execution_count self ->
        recursion_level (run cfg calls self)
          <= execution_count (run cfg calls self)) as Hrun.
      { induction calls as [|c rest IH]; intros self Hinv; [exact Hinv|].
        cbn [run]. apply IH, step_level_count, Hinv. }
      apply Hrun. reflexivity.
Qed.

End ExecutionRecursionDetectorBudgets.

(** * Properties of execution_recursion_decorator *)

Section ExecutionDecoratorProperties.

Import ExecutionRecursionDetector.

Variable cfg : settings.
Context {V : Type}.

(** X16: when [push_execution] returns [True] the decorated function
    returns the empty list whatever [func] is, and the detector ends with
    the level and the path as before, the count one higher and the base
    recorded as seen. *)
Theorem execution_decorator_blocked
    (func : t -> execution -> result t (list V)) (self : t)
    (e : execution) :
  fst (push_execution cfg self e) = true ->
  execution_recursion_decorator cfg func self e =
  Return []
    {| recursion_level := recursion_level self;
       parent_execution_funcs := parent_execution_funcs self;
       execution_funcs := {[base e]} ∪ execution_funcs self;
       execution_count := execution_count self + 1 |}.
Proof.
  intros Hblocked. unfold execution_recursion_decorator.
  rewrite Hblocked, pop_execution_after_push. reflexivity.
Qed.

(** X17: if [func] always returns and leaves the level and the path as
    it got them, then so does the decorated function: its own pop never
    raises.  Decorated functions can therefore call each other to any
    depth and leave level and path as they found them. *)
Theorem execution_decorator_keeps_path
    (func : t -> execution -> result t (list V)) :
  (forall s e, exists res s',
      func s e = Return res s' /\
      recursion_level s' = recursion_level s /\
      parent_execution_funcs s' = parent_execution_funcs s) ->
  forall s e, exists res s',
    execution_recursion_decorator cfg func s e = Return res s' /\
    recursion_level s' = recursion_level s /\
    parent_execution_funcs s' = parent_execution_funcs s.
Proof.
  intros Hfunc s e. unfold execution_recursion_decorator.
  destruct (fst (push_execution cfg s e)) eqn:Hpush.
  - rewrite pop_execution_after_push. eexists _, _. split; [reflexivity|].
    split; reflexivity.
  - destruct (Hfunc (snd (push_execution cfg s e)) e)
      as (res & s1 & Hres & Hlvl & Hpath).
    rewrite Hres. rewrite push_execution_state in Hlvl, Hpath.
    cbn [recursion_level parent_execution_funcs] in Hlvl, Hpath.
    unfold pop_execution. rewrite Hpath.
    destruct (parent_execution_funcs s ++ [base e]) as [|b l] eqn:E.
    + destruct (parent_execution_funcs s); discriminate E.
    + rewrite <- E, removelast_last.
      eexists _, _. split; [reflexivity|].
      cbn [recursion_level parent_execution_funcs]. split; [lia|reflexivity].
Qed.

Lemma push_execution_on_path_over_depth self e :
  exempt e = false ->
  base e ∈ parent_execution_funcs self ->
  max_function_recursion_level cfg < recursion_level self + 1 ->
  fst (push_execution cfg self e) = true.
Proof.
  intros Hex Hpath Hdeep. apply exempt_false in Hex as [Hkind Hmod].
  unfold push_execution.
  cbn [fst execution_count recursion_level execution_funcs].
  rewrite Hkind, (bool_decide_eq_false_2 _ Hmod).
  rewrite (bool_decide_eq_true_2 _ Hpath).
  rewrite (bool_decide_eq_true_2
             (max_function_recursion_level cfg < _) Hdeep).
  cbn [andb].
  destruct (bool_decide (max_executions cfg < execution_count self + 1));
    reflexivity.
Qed.

(** X18: [run] has no [finally]: when [func] raises, leaving the detector
    as it got it, the exception passes through without the pop, so the
    level stays one higher and the base stays at the end of the path
    although nothing is executing.  If the level had already reached
    [max_function_recursion_level - 1], the next push of that base, unless
    exempt, is then refused as a recursion. *)
Theorem execution_decorator_leaks_on_raise
    (func : t -> execution -> result t (list V)) (self : t)
    (e : execution) (x : exn) :
  fst (push_execution cfg self e) = false ->
  func (snd (push_execution cfg self e)) e
    = Raise x (snd (push_execution cfg self e)) ->
  exists s',
    execution_recursion_decorator cfg func self e = Raise x s' /\
    recursion_level s' = recursion_level self + 1 /\
    parent_execution_funcs s' = parent_execution_funcs self ++ [base e] /\
    (exempt e = false ->
     max_function_recursion_level cfg <= recursion_level self + 1 ->
     fst (push_execution cfg s' e) = true).
Proof.
  intros Hpush Hraise. unfold execution_recursion_decorator.
  rewrite Hpush, Hraise. eexists. split; [reflexivity|].
  rewrite push_execution_state. split; [reflexivity|].
  split; [reflexivity|].
  intros Hex Hdeep. apply push_execution_on_path_over_depth.
  - exact Hex.
  - apply elem_of_appended.
  - cbn [recursion_level]. lia.
Qed.

End ExecutionDecoratorProperties.

Lemma nested_calls_restore_path_witness :
  ExecutionRecursionDetector.parent_execution_funcs
    (ExecutionRecursionDetector.run ExecutionRecursionDetector.example_settings
       [ExecutionRecursionDetector.Push ExecutionRecursionDetector.exec_f;
        ExecutionRecursionDetector.Push ExecutionRecursionDetector.exec_g;
        ExecutionRecursionDetector.Pop;
        ExecutionRecursionDetector.Pop;
        ExecutionRecursionDetector.Push ExecutionRecursionDetector.exec_f;
        ExecutionRecursionDetector.Pop]
       ExecutionRecursionDetector.__init__) = [].
Proof.
  refine (proj1 (proj2 (nested_calls_restore_path
            ExecutionRecursionDetector.example_settings _
            ExecutionRecursionDetector.__init__ _))).
  apply (ExecutionRecursionDetector.nested_wrap
           ExecutionRecursionDetector.exec_f
           [ExecutionRecursionDetector.Push ExecutionRecursionDetector.exec_g;
            ExecutionRecursionDetector.Pop]
           [ExecutionRecursionDetector.Push ExecutionRecursionDetector.exec_f;
            ExecutionRecursionDetector.Pop]).
  - apply (ExecutionRecursionDetector.nested_wrap
             ExecutionRecursionDetector.exec_g [] []);
      apply ExecutionRecursionDetector.nested_nil.
  - apply (ExecutionRecursionDetector.nested_wrap
             ExecutionRecursionDetector.exec_f [] []);
      apply ExecutionRecursionDetector.nested_nil.
Defined.

Lemma exempt_refused_only_by_max_executions_witness :
  fst (ExecutionRecursionDetector.push_execution
         ExecutionRecursionDetector.tight_settings
         ExecutionRecursionDetector.seen_two
         (Execution (Generator 2) (SourceModule 7)))
  = bool_decide (3 < 2 + 1).
Proof.
  apply (exempt_refused_only_by_max_executions
           ExecutionRecursionDetector.tight_settings
           ExecutionRecursionDetector.seen_two
           (Execution (Generator 2) (SourceModule 7))).
  reflexivity.
Defined.

Lemma without_builtins_budget_absolute_witness :
  fst (ExecutionRecursionDetector.push_execution
         ExecutionRecursionDetector.tight_settings
         (ExecutionRecursionDetector.run
            ExecutionRecursionDetector.tight_settings
            [ExecutionRecursionDetector.Pop]
            (ExecutionRecursionDetector.run
               ExecutionRecursionDetector.tight_settings
               [ExecutionRecursionDetector.Push
                  ExecutionRecursionDetector.exec_g;
                ExecutionRecursionDetector.Pop;
                ExecutionRecursionDetector.Push
                  ExecutionRecursionDetector.exec_g;
                ExecutionRecursionDetector.Pop]
               ExecutionRecursionDetector.__init__))
         ExecutionRecursionDetector.exec_f) = true.
Proof.
  apply (without_builtins_budget_absolute
           ExecutionRecursionDetector.tight_settings).
  - vm_compute. reflexivity.
  - reflexivity.
Defined.

Lemma breadth_ceiling_witness :
  fst (ExecutionRecursionDetector.push_execution
         ExecutionRecursionDetector.narrow_settings
         (ExecutionRecursionDetector.run
            ExecutionRecursionDetector.narrow_settings
            (ExecutionRecursionDetector.one_by_one
               [ExecutionRecursionDetector.exec_f;
                ExecutionRecursionDetector.exec_g;
                ExecutionRecursionDetector.exec_h])
            ExecutionRecursionDetector.__init__)
         ExecutionRecursionDetector.exec_g) = true.
Proof.
  apply (breadth_ceiling ExecutionRecursionDetector.narrow_settings
           [ExecutionRecursionDetector.exec_f;
            ExecutionRecursionDetector.exec_g;
            ExecutionRecursionDetector.exec_h]
           ExecutionRecursionDetector.exec_g).
  - apply NoDup_ListNoDup. repeat constructor; simpl; intuition discriminate.
  - vm_compute. reflexivity.
  - apply list_elem_of_In. simpl. auto.
  - reflexivity.
Defined.

Lemma execution_decorator_blocked_witness :
  ExecutionRecursionDetector.execution_recursion_decorator
    ExecutionRecursionDetector.tight_settings
    (fun s _ => Return [7] s)
    ExecutionRecursionDetector.exhausted
    ExecutionRecursionDetector.exec_f
  = Return []
      {| ExecutionRecursionDetector.recursion_level := 0;
         ExecutionRecursionDetector.parent_execution_funcs := [];
         ExecutionRecursionDetector.execution_funcs :=
           {[Function 1]}
           ∪ ExecutionRecursionDetector.execution_funcs
               ExecutionRecursionDetector.exhausted;
         ExecutionRecursionDetector.execution_count := 4 + 1 |}.
Proof.
  apply (execution_decorator_blocked
           ExecutionRecursionDetector.tight_settings (V := Z)
           (fun s _ => Return [7] s)
           ExecutionRecursionDetector.exhausted
           ExecutionRecursionDetector.exec_f).
  vm_compute. reflexivity.
Defined.

Lemma execution_decorator_keeps_path_witness :
  exists res s',
    ExecutionRecursionDetector.execution_recursion_decorator
      ExecutionRecursionDetector.example_settings
      (fun s _ => Return [7] s)
      ExecutionRecursionDetector.__init__
      ExecutionRecursionDetector.exec_f = Return res s' /\
    ExecutionRecursionDetector.recursion_level s' = 0 /\
    ExecutionRecursionDetector.parent_execution_funcs s' = [].
Proof.
  apply (execution_decorator_keeps_path
           ExecutionRecursionDetector.example_settings (V := Z)
           (fun s _ => Return [7] s)).
  intros s e. exists [7], s. repeat split.
Defined.

Lemma execution_decorator_leaks_on_raise_witness :
  exists s',
    ExecutionRecursionDetector.execution_recursion_decorator
      ExecutionRecursionDetector.example_settings
      (fun s _ => Raise (A := list Z) AttributeError s)
      ExecutionRecursionDetector.__init__
      ExecutionRecursionDetector.exec_f = Raise AttributeError s' /\
    ExecutionRecursionDetector.recursion_level s' = 0 + 1 /\
    ExecutionRecursionDetector.parent_execution_funcs s'
      = [] ++ [Function 1] /\
    (ExecutionRecursionDetector.exempt ExecutionRecursionDetector.exec_f
       = false ->
     5 <= 0 + 1 ->
     fst (ExecutionRecursionDetector.push_execution
            ExecutionRecursionDetector.example_settings s'
            ExecutionRecursionDetector.exec_f) = true).
Proof.
  apply (execution_decorator_leaks_on_raise
           ExecutionRecursionDetector.example_settings (V := Z)
           (fun s _ => Raise AttributeError s)
           ExecutionRecursionDetector.__init__
           ExecutionRecursionDetector.exec_f AttributeError).
  - vm_compute. reflexivity.
  - reflexivity.
Defined.
